(** * Placeholder app-icon generator: a model of
      [scripts/generate_placeholder_icons.py] and its properties.

    The script builds, for every entry of a fixed size table, a bitmap with
    the Pillow imaging library, saves it as a PNG under a fixed directory and
    prints progress lines.  The model below follows the script statement by
    statement:

    - Python integers are [Z]; [//] is [Z.div] (floor division), [min] and
      [max] are [Z.min] and [Z.max];
    - the float product [min(width, height) * 0.6] is computed in IEEE
      binary64 with the axiom-free [SpecFloat] operations;
    - exceptions are the left summand of [exn + A];
    - the file store, the standard output and the operating-system calls are
      threaded through a state-and-exception monad [M];
    - what the script cannot decide by itself (which paths exist, which font
      files load, glyph metrics, the PNG encoder, which writes fail) is an
      explicit environment [Env]. *)

From Stdlib Require Import ZArith List Bool Lia.
From Stdlib Require Import Strings.String Strings.Ascii Strings.Byte.
From Stdlib Require Import Numbers.DecimalString.
From Stdlib Require Import Floats.SpecFloat.
From stdpp Require Import base option list strings gmap.

Local Open Scope Z_scope.

(** ** Python built-ins used by the script *)

Inductive exn : Set :=
  | ValueError
  | OverflowError
  | OSError.

Module Py.

(** Python's [float] is IEEE 754 binary64. *)
Definition prec : Z := 53.
Definition emax : Z := 1024.

(** [float(n)] for an [int]: correctly rounded; [OverflowError] when [n]
    is beyond the largest finite double. *)
Definition float_of_int (n : Z) : exn + spec_float :=
  match binary_normalize prec emax n 0 false with
  | S754_infinity _ | S754_nan => inl OverflowError
  | f => inr f
  end.

Definition float_mul (x y : spec_float) : spec_float := SFmul prec emax x y.

(** A decimal literal [n/d] is read as the double nearest to the quotient. *)
Definition float_literal (n d : Z) : spec_float :=
  SFdiv prec emax (binary_normalize prec emax n 0 false)
                  (binary_normalize prec emax d 0 false).

(** [int(x)] for a [float]: truncation toward zero; infinities raise
    [OverflowError] and NaN raises [ValueError]. *)
Definition int_of_float (x : spec_float) : exn + Z :=
  match x with
  | S754_zero _ => inr 0
  | S754_finite s m e =>
      let a := Z.shiftl (Zpos m) e in
      inr (if s then - a else a)
  | S754_infinity _ => inl OverflowError
  | S754_nan => inl ValueError
  end.

(** [n * x] with [n : int] and [x : float]: the integer is converted first. *)
Definition int_times_float (n : Z) (x : spec_float) : exn + spec_float :=
  match float_of_int n with
  | inl err => inl err
  | inr f => inr (float_mul f x)
  end.

(** [str(n)], as used by an f-string replacement field. *)
Definition str (n : Z) : string := NilZero.string_of_int (Z.to_int n).

Definition starts_with_slash (s : string) : bool :=
  match s with
  | String c _ => Ascii.eqb c "/"
  | EmptyString => false
  end.

Fixpoint ends_with_slash (s : string) : bool :=
  match s with
  | EmptyString => false
  | String c EmptyString => Ascii.eqb c "/"
  | String _ rest => ends_with_slash rest
  end.

(** [os.path.join(a, b)] on a POSIX system, for two components. *)
Definition os_path_join (a b : string) : string :=
  if starts_with_slash b then b
  else if (String.eqb a "" || ends_with_slash a)%bool then a +:+ b
  else a +:+ "/" +:+ b.

Definition newline : string := String (ascii_of_nat 10) EmptyString.

End Py.

(** ** The part of Pillow the script calls

    An image is its mode, its size, its background fill and the drawing
    calls applied to it, in order.  The raster itself is produced by the
    library from exactly this data. *)

Module PIL.

Definition color := string.

Inductive Font : Type :=
  | FreeTypeFont (path : string) (size : Z)
  | DefaultFont.

(** The pixel size a font was loaded at; the built-in default font has a
    size of its own that the caller does not choose. *)
Definition requested_size (f : Font) : option Z :=
  match f with
  | FreeTypeFont _ size => Some size
  | DefaultFont => None
  end.

Definition box : Type := (Z * Z) * (Z * Z).

Inductive DrawOp : Type :=
  | RoundedRectangle (xy : box) (radius : Z) (fill outline : color) (width : Z)
  | Text (xy : Z * Z) (text : string) (fill : color) (font : Font).

Record Image : Type := mkImage {
  mode : string;
  size : Z * Z;
  background : color;
  drawn : list DrawOp
}.

(** [Image.new(mode, size, color)]: a negative dimension is a [ValueError]
    (the size check made first); a dimension that does not fit a C [int],
    2^31 or more, is an [OverflowError] when the size is handed to the
    imaging core.  Running out of memory on a canvas within these limits is
    outside the model. *)
Definition new (mode : string) (size : Z * Z) (c : color) : exn + Image :=
  if ((size.1 <? 0) || (size.2 <? 0))%bool then inl ValueError
  else if ((2147483647 <? size.1) || (2147483647 <? size.2))%bool
       then inl OverflowError
  else inr (mkImage mode size c []).

Definition draw (op : DrawOp) (img : Image) : Image :=
  mkImage (mode img) (size img) (background img) (drawn img ++ [op]).

(** [ImageDraw.rounded_rectangle(xy, radius, fill, outline, width)]: the
    two corners are inclusive pixel coordinates; a second corner left of or
    above the first is a [ValueError]. *)
Definition rounded_rectangle (img : Image) (xy : box) (radius : Z)
    (fill outline : color) (width : Z) : exn + Image :=
  let '((x0, y0), (x1, y1)) := xy in
  if ((x1 <? x0) || (y1 <? y0))%bool then inl ValueError
  else inr (draw (RoundedRectangle xy radius fill outline width) img).

(** [ImageDraw.text(xy, text, fill, font)]. *)
Definition text (img : Image) (xy : Z * Z) (s : string) (fill : color)
    (font : Font) : Image :=
  draw (Text xy s fill font) img.

(** [ImageFont.load_default()]. *)
Definition load_default : Font := DefaultFont.

End PIL.

Import PIL.

(** ** The environment of a run *)

Record Env : Type := mkEnv {
  (** [os.path.exists] *)
  path_exists : string → bool;
  (** whether [ImageFont.truetype(path, size)] loads the font *)
  font_loads : string → Z → bool;
  (** [font.getbbox(text)]: (left, top, right, bottom) of the text drawn at
      the origin *)
  getbbox : Font → string → Z * Z * Z * Z;
  (** the PNG encoder behind [img.save(path, 'PNG')] *)
  png_encode : Image → list byte;
  (** whether opening [path] for writing fails *)
  save_raises : string → bool
}.

(** [ImageFont.truetype(path, size)]: raises [OSError] when the font cannot
    be loaded. *)
Definition truetype (e : Env) (path : string) (size : Z) : exn + Font :=
  if font_loads e path size then inr (FreeTypeFont path size) else inl OSError.

(** [ImageDraw.textbbox(xy, text, font)]: the font's box moved to [xy]. *)
Definition textbbox (e : Env) (xy : Z * Z) (s : string) (font : Font)
    : Z * Z * Z * Z :=
  let '(l, t, r, b) := getbbox e font s in
  (l + xy.1, t + xy.2, r + xy.1, b + xy.2).

(** ** State: files on disk, standard output, operating-system calls *)

Inductive OsCall : Type :=
  | PathExists (p : string)
  | OpenWrite (p : string).

Record World : Type := mkWorld {
  files : gmap string (list byte);
  stdout : list string;
  oscalls : list OsCall
}.

Definition M (A : Type) : Type := World → (exn + A) * World.

Definition ret {A} (a : A) : M A := λ w, (inr a, w).

Definition bind {A B} (c : M A) (k : A → M B) : M B :=
  λ w, match c w with
       | (inl err, w') => (inl err, w')
       | (inr a, w') => k a w'
       end.

Definition lift {A} (r : exn + A) : M A := λ w, (r, w).

Notation "x <- c ;; k" := (bind c (λ x, k))
  (at level 100, c at level 99, k at level 200, right associativity).
Notation "c ;;; k" := (bind c (λ _, k))
  (at level 100, k at level 200, right associativity).

(** [print(s)] *)
Definition print (s : string) : M unit :=
  λ w, (inr tt, mkWorld (files w) (stdout w ++ [s]) (oscalls w)).

(** [os.path.exists(p)] *)
Definition os_path_exists (e : Env) (p : string) : M bool :=
  λ w, (inr (path_exists e p),
        mkWorld (files w) (stdout w) (oscalls w ++ [PathExists p])).

(** [img.save(p, 'PNG')] *)
Definition save (e : Env) (img : Image) (p : string) : M unit :=
  λ w, if save_raises e p
       then (inl OSError,
             mkWorld (files w) (stdout w) (oscalls w ++ [OpenWrite p]))
       else (inr tt,
             mkWorld (<[p := png_encode e img]> (files w)) (stdout w)
                     (oscalls w ++ [OpenWrite p])).

(** ** The script *)

Definition output_dir : string := "SwipeSort/Assets.xcassets/AppIcon.appiconset".

(** The [sizes] dict, in insertion order (the order [items()] iterates in). *)
Definition sizes : list (string * (Z * Z)) :=
  [ ("AppIcon-20x20@1x.png", (20, 20));
    ("AppIcon-20x20@2x.png", (40, 40));
    ("AppIcon-20x20@3x.png", (60, 60));
    ("AppIcon-29x29@1x.png", (29, 29));
    ("AppIcon-29x29@2x.png", (58, 58));
    ("AppIcon-29x29@3x.png", (87, 87));
    ("AppIcon-40x40@1x.png", (40, 40));
    ("AppIcon-40x40@2x.png", (80, 80));
    ("AppIcon-40x40@3x.png", (120, 120));
    ("AppIcon-60x60@2x.png", (120, 120));
    ("AppIcon-60x60@3x.png", (180, 180));
    ("AppIcon-76x76@1x.png", (76, 76));
    ("AppIcon-76x76@2x.png", (152, 152));
    ("AppIcon-83.5x83.5@2x.png", (167, 167));
    ("AppIcon-1024x1024.png", (1024, 1024)) ].

Definition helvetica : string := "/System/Library/Fonts/Helvetica.ttc".
Definition arial : string := "/System/Library/Fonts/Supplemental/Arial.ttf".

(** [int(min(width, height) * 0.6)] *)
Definition font_size (width height : Z) : exn + Z :=
  match Py.int_times_float (Z.min width height) (Py.float_literal 6 10) with
  | inl err => inl err
  | inr x => Py.int_of_float x
  end.

(** Lines 47-59: the nested [try]/[except] font selection. *)
Definition choose_font (e : Env) (width height : Z) : Font :=
  match font_size width height with
  | inr fs =>
      match truetype e helvetica fs with
      | inr font => font
      | inl _ =>
          match truetype e arial fs with
          | inr font => font
          | inl _ => load_default
          end
      end
  | inl _ => load_default
  end.

(** Lines 62-66: where the text origin is put. *)
Definition text_position (e : Env) (width height : Z) (s : string)
    (font : Font) : Z * Z :=
  let '(b0, b1, b2, b3) := textbbox e (0, 0) s font in
  let text_width := b2 - b0 in
  let text_height := b3 - b1 in
  ((width - text_width) / 2, (height - text_height) / 2 - b1).

(** Lines 33-68: the bitmap handed to [save]. *)
Definition draw_placeholder (e : Env) (width height : Z) : exn + Image :=
  match PIL.new "RGB" (width, height) "#4A90E2" with
  | inl err => inl err
  | inr img =>
      let border_radius := Z.min width height / 8 in
      match rounded_rectangle img ((0, 0), (width - 1, height - 1))
              border_radius "#5BA3F5" "#3A7BC8" (Z.max 1 (width / 64)) with
      | inl err => inl err
      | inr img =>
          let font := choose_font e width height in
          let s := "S"%string in
          let position := text_position e width height s font in
          inr (PIL.text img position s "white" font)
      end
  end.

Definition created_line (filename : string) (width height : Z) : string :=
  "✓ Created: " +:+ filename +:+ " (" +:+ Py.str width +:+ "x"
    +:+ Py.str height +:+ ")".

Definition create_placeholder_icon (e : Env) (filename : string)
    (width height : Z) : M unit :=
  img <- lift (draw_placeholder e width height) ;;
  let output_path := Py.os_path_join output_dir filename in
  save e img output_path ;;;
  print (created_line filename width height).

(** The [for] loop of [main]. *)
Fixpoint for_items (e : Env) (items : list (string * (Z * Z))) : M unit :=
  match items with
  | [] => ret tt
  | (filename, (width, height)) :: rest =>
      create_placeholder_icon e filename width height ;;;
      for_items e rest
  end.

Definition error_line : string :=
  "Error: Directory " +:+ output_dir +:+ " does not exist".
Definition header_lines : list string :=
  [ "Generating placeholder app icons...";
    "Output directory: " +:+ output_dir +:+ Py.newline ]%string.
Definition success_line : string :=
  Py.newline +:+ "✓ All placeholder icons generated successfully!".
Definition note_line : string :=
  "⚠️  Note: These are temporary placeholder images. Replace with actual app icons before release.".

Definition main (e : Env) : M unit :=
  present <- os_path_exists e output_dir ;;
  if negb present then
    print error_line
  else
    print "Generating placeholder app icons..." ;;;
    print ("Output directory: " +:+ output_dir +:+ Py.newline) ;;;
    for_items e sizes ;;;
    print success_line ;;;
    print note_line.

(** Running the file as a script: the interpreter exits with status 0 when
    [main()] returns and with status 1 when an exception reaches top level. *)
Definition run_script (e : Env) (w : World) : Z * World :=
  match main e w with
  | (inr _, w') => (0, w')
  | (inl _, w') => (1, w')
  end.

(** ** Vocabulary for the properties *)

(** Where the icon for [filename] is written. *)
Definition icon_path (filename : string) : string :=
  Py.os_path_join output_dir filename.

(** The bytes the script puts on disk for a [width] x [height] icon. *)
Definition icon_bytes (e : Env) (width height : Z) : option (list byte) :=
  match draw_placeholder e width height with
  | inr img => Some (png_encode e img)
  | inl _ => None
  end.

Definition writes_succeed (e : Env) (items : list (string * (Z * Z))) : Prop :=
  Forall (λ it, save_raises e (icon_path it.1) = false) items.

(** Sizes for which [draw_placeholder] yields a bitmap: positive, and
    within the range of a C [int]. *)
Definition drawable_sizes (items : list (string * (Z * Z))) : Prop :=
  Forall (λ it, 0 < it.2.1 < 2147483648 ∧ 0 < it.2.2 < 2147483648) items.

(** The file store after the loop has written [items] without a failure. *)
Definition written (e : Env) (items : list (string * (Z * Z)))
    (fs : gmap string (list byte)) : gmap string (list byte) :=
  foldl (λ m it,
           match icon_bytes e it.2.1 it.2.2 with
           | Some bytes => <[icon_path it.1 := bytes]> m
           | None => m
           end) fs items.

Definition created_lines (items : list (string * (Z * Z))) : list string :=
  map (λ it, created_line it.1 it.2.1 it.2.2) items.

Definition write_calls (items : list (string * (Z * Z))) : list OsCall :=
  map (λ it, OpenWrite (icon_path it.1)) items.

(** The rounded rectangles of an image: their boxes, radii and strokes. *)
Definition rectangle_boxes (img : Image) : list box :=
  omap (λ op, match op with
              | RoundedRectangle xy _ _ _ _ => Some xy
              | Text _ _ _ _ => None
              end) (drawn img).

Definition rectangle_radii (img : Image) : list Z :=
  omap (λ op, match op with
              | RoundedRectangle _ radius _ _ _ => Some radius
              | Text _ _ _ _ => None
              end) (drawn img).

Definition rectangle_strokes (img : Image) : list Z :=
  omap (λ op, match op with
              | RoundedRectangle _ _ _ _ width => Some width
              | Text _ _ _ _ => None
              end) (drawn img).

(** The pixels of a canvas, as an inclusive box. *)
Definition canvas_extent (sz : Z * Z) : box := ((0, 0), (sz.1 - 1, sz.2 - 1)).

(** A box that keeps a margin to every edge of the canvas. *)
Definition strictly_inside (b : box) (sz : Z * Z) : Prop :=
  0 < b.1.1 ∧ 0 < b.1.2 ∧ b.2.1 < sz.1 - 1 ∧ b.2.2 < sz.2 - 1.

(** The texts of an image: string, font, and the bounding box that
    [ImageDraw.textbbox] reports for the text at the position it was drawn
    at.  This is the box the script centres.  Horizontally it runs from the
    pen origin to the advance of the text, so it is not the extent of the
    inked pixels, which the model does not describe. *)
Definition text_boxes (e : Env) (img : Image)
    : list (string * Font * (Z * Z * Z * Z)) :=
  omap (λ op, match op with
              | Text xy s _ font => Some (s, font, textbbox e xy s font)
              | RoundedRectangle _ _ _ _ _ => None
              end) (drawn img).

(** A text box with equal margins left and right (top and bottom), up to
    the one pixel that integer halving can lose. *)
Definition centred_horizontally (width : Z) (b : Z * Z * Z * Z) : Prop :=
  let '(l, _, r, _) := b in Z.abs (l - (width - r)) ≤ 1.

Definition centred_vertically (height : Z) (b : Z * Z * Z * Z) : Prop :=
  let '(_, t, _, bt) := b in Z.abs (t - (height - bt)) ≤ 1.

(** The glyph as the specification words it: one letter, loaded at 60 % of
    the smaller dimension, its text box centred both ways. *)
Definition glyph_as_specified (e : Env) (width height : Z) : Prop :=
  ∃ img fs font b,
    draw_placeholder e width height = inr img ∧
    font_size width height = inr fs ∧
    text_boxes e img = [("S"%string, font, b)] ∧
    requested_size font = Some fs ∧
    centred_horizontally width b ∧
    centred_vertically height b.

(** The rounded rectangle as the specification words it: drawn with a
    margin to every edge of the canvas. *)
Definition rectangle_as_specified (e : Env) (width height : Z) : Prop :=
  ∃ img b,
    draw_placeholder e width height = inr img
    ∧ rectangle_boxes img = [b]
    ∧ strictly_inside b (size img).

(** The same environment with another answer to which fonts load. *)
Definition with_fonts (e : Env) (loads : string → Z → bool) : Env :=
  mkEnv (path_exists e) loads (getbbox e) (png_encode e) (save_raises e).

(** ** Sample environments *)

Definition sample_encode (img : Image) : list byte :=
  list_byte_of_string
    (mode img +:+ ":" +:+ Py.str (size img).1 +:+ "x" +:+ Py.str (size img).2).

(** Text boxes start at the pen origin (left = 0); at 614 pixels the
    FreeType box is (0, 164, 359, 605). *)
Definition sample_metrics (font : Font) (s : string) : Z * Z * Z * Z :=
  match font with
  | FreeTypeFont _ px => (0, px * 164 / 614, px * 359 / 614, px * 605 / 614)
  | DefaultFont => (0, 0, 6, 11)
  end.

(** A machine without the two system fonts; every write succeeds. *)
Definition env_fallback : Env :=
  mkEnv (λ _, true) (λ _ _, false) sample_metrics sample_encode (λ _, false).

(** A machine where Helvetica loads. *)
Definition env_helvetica : Env :=
  mkEnv (λ _, true) (λ p _, String.eqb p helvetica) sample_metrics
        sample_encode (λ _, false).

(** The output directory is missing. *)
Definition env_no_directory : Env :=
  mkEnv (λ _, false) (λ _ _, false) sample_metrics sample_encode (λ _, false).

(** The directory is there, but writing the fourth icon fails. *)
Definition env_write_fails : Env :=
  mkEnv (λ _, true) (λ _ _, false) sample_metrics sample_encode
        (λ p, String.eqb p (icon_path "AppIcon-29x29@1x.png")).

Definition empty_world : World := mkWorld ∅ [] [].

(** A world in which an earlier run left other bytes behind. *)
Definition stale_world : World :=
  mkWorld {[ icon_path "AppIcon-1024x1024.png" := [] ]} ["earlier"%string] [].

(** ** Vocabulary for runs in an arbitrary environment *)

(** The entries the loop writes: those before the first write that fails. *)
Fixpoint written_prefix (e : Env) (items : list (string * (Z * Z)))
    : list (string * (Z * Z)) :=
  match items with
  | [] => []
  | it :: rest =>
      if save_raises e (icon_path it.1) then []
      else it :: written_prefix e rest
  end.

(** The entries whose file the loop opens: the written ones and, if a write
    fails, the entry it fails on. *)
Fixpoint attempted (e : Env) (items : list (string * (Z * Z)))
    : list (string * (Z * Z)) :=
  match items with
  | [] => []
  | it :: rest =>
      if save_raises e (icon_path it.1) then [it]
      else it :: attempted e rest
  end.

Definition all_written (e : Env) (items : list (string * (Z * Z))) : bool :=
  forallb (λ it, negb (save_raises e (icon_path it.1))) items.

(** Whether, for every square canvas of side [side], [side + 1], ...
    ([fuel] of them), the binary64 computation of the font size gives
    floor(6 * side / 10). *)
Fixpoint font_size_exact_from (fuel : nat) (side : Z) : bool :=
  match fuel with
  | O => true
  | S fuel' =>
      match font_size side side with
      | inr fs => fs =? side * 6 / 10
      | inl _ => false
      end && font_size_exact_from fuel' (side + 1)
  end.

Definition font_size_exact_upto (n : Z) : bool :=
  font_size_exact_from (S (Z.to_nat n)) 0.

(** * Properties *)

(** ** Sanity checks of the model on concrete inputs *)

Example float_literal_six_tenths :
  Py.float_literal 6 10 = S754_finite false 5404319552844595 (-53).
Proof. vm_compute. reflexivity. Qed.

Example font_size_negative : font_size (-3) 5 = inr (-1).
Proof. vm_compute. reflexivity. Qed.

Example font_size_overflow : font_size (2 ^ 2000) (2 ^ 2000) = inl OverflowError.
Proof. vm_compute. reflexivity. Qed.

Example created_line_first :
  created_line "AppIcon-20x20@1x.png" 20 20
  = "✓ Created: AppIcon-20x20@1x.png (20x20)"%string.
Proof. vm_compute. reflexivity. Qed.

Example icon_path_first :
  icon_path "AppIcon-20x20@1x.png"
  = "SwipeSort/Assets.xcassets/AppIcon.appiconset/AppIcon-20x20@1x.png"%string.
Proof. vm_compute. reflexivity. Qed.

Example draw_placeholder_zero_width :
  draw_placeholder env_fallback 0 20 = inl ValueError.
Proof. vm_compute. reflexivity. Qed.

(** ** The bitmap *)

Lemma draw_placeholder_ok (e : Env) (width height : Z) :
  0 < width < 2147483648 → 0 < height < 2147483648 →
  draw_placeholder e width height =
    inr (mkImage "RGB" (width, height) "#4A90E2"
           [ RoundedRectangle ((0, 0), (width - 1, height - 1))
               (Z.min width height / 8) "#5BA3F5" "#3A7BC8"
               (Z.max 1 (width / 64));
             Text (text_position e width height "S"
                     (choose_font e width height))
               "S" "white" (choose_font e width height) ]).
Proof.
  intros Hw Hh.
  unfold draw_placeholder, PIL.new, rounded_rectangle; simpl.
  destruct (Z.ltb_spec width 0); [lia|].
  destruct (Z.ltb_spec height 0); [lia|]. simpl.
  destruct (Z.ltb_spec 2147483647 width); [lia|].
  destruct (Z.ltb_spec 2147483647 height); [lia|]. simpl.
  destruct (Z.ltb_spec (width - 1) 0); [lia|].
  destruct (Z.ltb_spec (height - 1) 0); [lia|]. reflexivity.
Qed.

Lemma draw_placeholder_inv (e : Env) (width height : Z) (img : Image) :
  draw_placeholder e width height = inr img →
  0 < width < 2147483648 ∧ 0 < height < 2147483648.
Proof.
  unfold draw_placeholder, PIL.new, rounded_rectangle; simpl.
  destruct (Z.ltb_spec width 0); [discriminate|].
  destruct (Z.ltb_spec height 0); [discriminate|]. simpl.
  destruct (Z.ltb_spec 2147483647 width); [discriminate|].
  destruct (Z.ltb_spec 2147483647 height); [discriminate|]. simpl.
  destruct (Z.ltb_spec (width - 1) 0); [discriminate|].
  destruct (Z.ltb_spec (height - 1) 0); [discriminate|]. lia.
Qed.

Lemma icon_bytes_ok (e : Env) (width height : Z) :
  0 < width < 2147483648 → 0 < height < 2147483648 →
  ∃ img, draw_placeholder e width height = inr img
         ∧ icon_bytes e width height = Some (png_encode e img)
         ∧ size img = (width, height).
Proof.
  intros Hw Hh. unfold icon_bytes.
  rewrite (draw_placeholder_ok e _ _ Hw Hh). eexists. split; [reflexivity|].
  split; reflexivity.
Qed.

Lemma sizes_drawable : drawable_sizes sizes.
Proof. unfold drawable_sizes, sizes. repeat constructor. Qed.

Lemma icon_paths_distinct : NoDup (map (λ it, icon_path it.1) sizes).
Proof. apply (bool_decide_unpack _). vm_compute. reflexivity. Qed.

(** ** One icon, then the loop *)

Lemma create_placeholder_icon_ok e filename width height w :
  0 < width < 2147483648 → 0 < height < 2147483648 →
  save_raises e (icon_path filename) = false →
  create_placeholder_icon e filename width height w =
    (inr tt,
     mkWorld (written e [(filename, (width, height))] (files w))
             (stdout w ++ [created_line filename width height])
             (oscalls w ++ [OpenWrite (icon_path filename)])).
Proof.
  intros Hw Hh Hs.
  destruct (icon_bytes_ok e width height Hw Hh) as (img & Hd & Hb & _).
  unfold create_placeholder_icon, bind, lift, save, print, written; simpl.
  rewrite Hd, Hb. fold (icon_path filename). rewrite Hs. reflexivity.
Qed.

Lemma create_placeholder_icon_write_fails e filename width height w :
  0 < width < 2147483648 → 0 < height < 2147483648 →
  save_raises e (icon_path filename) = true →
  create_placeholder_icon e filename width height w =
    (inl OSError,
     mkWorld (files w) (stdout w)
             (oscalls w ++ [OpenWrite (icon_path filename)])).
Proof.
  intros Hw Hh Hs.
  unfold create_placeholder_icon, bind, lift, save; simpl.
  rewrite (draw_placeholder_ok e _ _ Hw Hh).
  fold (icon_path filename). rewrite Hs. reflexivity.
Qed.

Lemma for_items_ok e items : ∀ w,
  drawable_sizes items → writes_succeed e items →
  for_items e items w =
    (inr tt,
     mkWorld (written e items (files w))
             (stdout w ++ created_lines items)
             (oscalls w ++ write_calls items)).
Proof.
  induction items as [|[filename [width height]] rest IH]; intros w Hp Hs.
  - simpl. unfold ret. rewrite !app_nil_r. destruct w; reflexivity.
  - inversion Hp as [|? ? [Hw Hh] Hp']; subst.
    inversion Hs as [|? ? Hs1 Hs']; subst. simpl in *.
    unfold bind. rewrite create_placeholder_icon_ok by assumption.
    rewrite IH by assumption. simpl.
    rewrite <- !app_assoc. reflexivity.
Qed.

Lemma for_items_write_fails e pre filename width height post : ∀ w,
  drawable_sizes pre → writes_succeed e pre →
  0 < width < 2147483648 → 0 < height < 2147483648 →
  save_raises e (icon_path filename) = true →
  for_items e (pre ++ (filename, (width, height)) :: post) w =
    (inl OSError,
     mkWorld (written e pre (files w))
             (stdout w ++ created_lines pre)
             (oscalls w ++ write_calls (pre ++ [(filename, (width, height))]))).
Proof.
  induction pre as [|[f [a b]] pre IH]; intros w Hp Hs Hw Hh Hf.
  - simpl. unfold bind.
    rewrite create_placeholder_icon_write_fails by assumption.
    rewrite app_nil_r. reflexivity.
  - inversion Hp as [|? ? [Ha Hb] Hp']; subst.
    inversion Hs as [|? ? Hs1 Hs']; subst. simpl in *.
    unfold bind. rewrite create_placeholder_icon_ok by assumption.
    rewrite IH by assumption. simpl.
    rewrite <- !app_assoc. reflexivity.
Qed.

(** ** What the file store holds after the loop *)

Lemma written_lookup_other e items : ∀ fs p,
  p ∉ map (λ it, icon_path it.1) items →
  written e items fs !! p = fs !! p.
Proof.
  induction items as [|it rest IH]; intros fs p Hp; [reflexivity|].
  simpl in *. apply not_elem_of_cons in Hp as [Hne Hp].
  rewrite IH by assumption.
  destruct (icon_bytes e it.2.1 it.2.2); [|reflexivity].
  apply lookup_insert_ne. congruence.
Qed.

Lemma written_lookup e items : ∀ fs filename width height,
  NoDup (map (λ it, icon_path it.1) items) →
  drawable_sizes items →
  (filename, (width, height)) ∈ items →
  written e items fs !! icon_path filename = icon_bytes e width height.
Proof.
  induction items as [|it rest IH]; intros fs filename width height Hnd Hp Hin.
  - inversion Hin.
  - simpl in Hnd. apply NoDup_cons in Hnd as [Hfresh Hnd].
    inversion Hp as [|? ? [Hw Hh] Hp']; subst.
    apply elem_of_cons in Hin as [Heq|Hin].
    + subst it. simpl. rewrite written_lookup_other by exact Hfresh. simpl.
      destruct (icon_bytes_ok e width height Hw Hh) as (img & _ & Hb & _).
      simpl in Hw, Hh. rewrite Hb. apply lookup_insert_eq.
    + simpl. apply IH; assumption.
Qed.

(** ** The three ways [main] can go *)

Lemma main_missing_directory e w :
  path_exists e output_dir = false →
  main e w =
    (inr tt,
     mkWorld (files w) (stdout w ++ [error_line])
             (oscalls w ++ [PathExists output_dir])).
Proof.
  intros Hd. unfold main, bind, os_path_exists, print.
  rewrite Hd. reflexivity.
Qed.

Lemma main_ok e w :
  path_exists e output_dir = true → writes_succeed e sizes →
  main e w =
    (inr tt,
     mkWorld (written e sizes (files w))
             (stdout w ++ header_lines ++ created_lines sizes
                ++ [success_line; note_line])
             (oscalls w ++ PathExists output_dir :: write_calls sizes)).
Proof.
  intros Hd Hs. unfold main, bind, os_path_exists, print.
  rewrite Hd. cbn [negb files stdout oscalls].
  rewrite (for_items_ok e sizes _ sizes_drawable Hs).
  cbn [files stdout oscalls]. unfold header_lines.
  rewrite <- !app_assoc. reflexivity.
Qed.

Lemma main_write_fails e w pre filename width height post :
  sizes = pre ++ (filename, (width, height)) :: post →
  path_exists e output_dir = true → writes_succeed e pre →
  save_raises e (icon_path filename) = true →
  main e w =
    (inl OSError,
     mkWorld (written e pre (files w))
             (stdout w ++ header_lines ++ created_lines pre)
             (oscalls w ++ PathExists output_dir
                :: write_calls (pre ++ [(filename, (width, height))]))).
Proof.
  intros Hsplit Hd Hs Hf.
  pose proof sizes_drawable as Hp. unfold drawable_sizes in Hp.
  rewrite Hsplit in Hp. apply Forall_app in Hp as [Hpre Hp].
  apply Forall_cons in Hp as [[Hw Hh] _]. simpl in Hw, Hh.
  unfold main, bind, os_path_exists, print.
  rewrite Hd. cbn [negb files stdout oscalls]. rewrite Hsplit.
  rewrite (for_items_write_fails e pre filename width height post _
             Hpre Hs Hw Hh Hf).
  cbn [files stdout oscalls]. unfold header_lines.
  rewrite <- !app_assoc. reflexivity.
Qed.

(** ** Fonts do not decide whether a run succeeds *)

Lemma for_items_any_fonts e loads items : ∀ w1 w2,
  drawable_sizes items →
  stdout w1 = stdout w2 → oscalls w1 = oscalls w2 →
  (for_items (with_fonts e loads) items w1).1 = (for_items e items w2).1
  ∧ stdout (for_items (with_fonts e loads) items w1).2
    = stdout (for_items e items w2).2
  ∧ oscalls (for_items (with_fonts e loads) items w1).2
    = oscalls (for_items e items w2).2.
Proof.
  induction items as [|[f [a b]] rest IH]; intros w1 w2 Hp Ho Hc.
  - simpl. auto.
  - inversion Hp as [|? ? [Ha Hb] Hp']; subst. simpl in Ha, Hb.
    simpl. unfold bind.
    destruct (save_raises e (icon_path f)) eqn:Hs.
    + rewrite (create_placeholder_icon_write_fails (with_fonts e loads))
        by assumption.
      rewrite (create_placeholder_icon_write_fails e) by assumption.
      simpl. rewrite Ho, Hc. auto.
    + rewrite (create_placeholder_icon_ok (with_fonts e loads)) by assumption.
      rewrite (create_placeholder_icon_ok e) by assumption.
      apply IH; [assumption| |]; simpl; congruence.
Qed.

Lemma main_any_fonts e loads w :
  (main (with_fonts e loads) w).1 = (main e w).1
  ∧ stdout (main (with_fonts e loads) w).2 = stdout (main e w).2
  ∧ oscalls (main (with_fonts e loads) w).2 = oscalls (main e w).2.
Proof.
  destruct (path_exists e output_dir) eqn:Hd.
  - unfold main, bind, os_path_exists, print.
    cbn [path_exists with_fonts]. rewrite Hd. cbn [negb files stdout oscalls].
    pose proof (for_items_any_fonts e loads sizes
      (mkWorld (files w)
         ((stdout w ++ ["Generating placeholder app icons..."%string]) ++
            [("Output directory: " +:+ output_dir +:+ Py.newline)%string])
         (oscalls w ++ [PathExists output_dir]))
      (mkWorld (files w)
         ((stdout w ++ ["Generating placeholder app icons..."%string]) ++
            [("Output directory: " +:+ output_dir +:+ Py.newline)%string])
         (oscalls w ++ [PathExists output_dir]))
      sizes_drawable eq_refl eq_refl) as (Hr & Ho & Hc).
    cbn [files stdout oscalls] in *.
    destruct (for_items (with_fonts e loads) sizes _) as [[x1|[]] v1];
      destruct (for_items e sizes _) as [[x2|[]] v2];
      simpl in *; try discriminate; repeat split; congruence.
  - rewrite (main_missing_directory (with_fonts e loads)) by exact Hd.
    rewrite (main_missing_directory e) by exact Hd. auto.
Qed.

(** ** The size table and the image dimensions *)

(** C1: the size table has exactly 15 entries with pairwise distinct
    filenames, every declared width and height is a positive integer, and
    for every entry the bitmap the script builds has exactly the declared
    (width, height); on a run that reaches the end, that bitmap's PNG
    encoding is what the entry's output path holds. *)
Theorem size_table_and_image_dimensions (e : Env) (w : World) :
  length sizes = 15%nat
  ∧ NoDup (map fst sizes)
  ∧ Forall (λ it, 0 < it.2.1 ∧ 0 < it.2.2) sizes
  ∧ Forall (λ it,
      ∃ img, draw_placeholder e it.2.1 it.2.2 = inr img
             ∧ size img = it.2
             ∧ (path_exists e output_dir = true → writes_succeed e sizes →
                files (main e w).2 !! icon_path it.1
                = Some (png_encode e img))) sizes.
Proof.
  split; [reflexivity|].
  split; [apply (bool_decide_unpack _); vm_compute; reflexivity|].
  split; [eapply Forall_impl; [exact sizes_drawable|];
          intros it [Hw Hh]; split; lia|].
  apply Forall_forall. intros [filename [width height]] Hin.
  pose proof sizes_drawable as Hp. unfold drawable_sizes in Hp.
  rewrite Forall_forall in Hp. destruct (Hp _ Hin) as [Hw Hh].
  simpl in Hw, Hh. simpl.
  destruct (icon_bytes_ok e width height Hw Hh) as (img & Hd & Hb & Hsz).
  exists img. split; [exact Hd|]. split; [exact Hsz|].
  intros Hdir Hs. rewrite (main_ok e w Hdir Hs). cbn [snd files].
  rewrite (written_lookup e sizes _ filename width height
             icon_paths_distinct sizes_drawable Hin).
  exact Hb.
Qed.

Lemma size_table_and_image_dimensions_witness :
  path_exists env_fallback output_dir = true
  ∧ writes_succeed env_fallback sizes
  ∧ ∃ img, draw_placeholder env_fallback 1024 1024 = inr img
           ∧ size img = (1024, 1024)
           ∧ files (main env_fallback stale_world).2
               !! icon_path "AppIcon-1024x1024.png"
             = Some (png_encode env_fallback img).
Proof.
  assert (Hs : writes_succeed env_fallback sizes)
    by (unfold writes_succeed, sizes; repeat constructor).
  split; [reflexivity|]. split; [exact Hs|].
  destruct (size_table_and_image_dimensions env_fallback stale_world)
    as (_ & _ & _ & H).
  do 14 apply Forall_inv_tail in H. apply Forall_inv in H.
  destruct H as (img & Hd & Hsz & Hf).
  exists img. split; [exact Hd|]. split; [exact Hsz|].
  apply Hf; [reflexivity|exact Hs].
Defined.

(** ** A missing output directory *)

(** C2: when the output directory does not exist, the run prints the
    diagnostic line "Error: Directory
    SwipeSort/Assets.xcassets/AppIcon.appiconset does not exist" and returns
    at once: nothing else is printed, the file store is unchanged and no
    file is opened for writing. *)
Theorem missing_directory_aborts (e : Env) (w : World) :
  path_exists e "SwipeSort/Assets.xcassets/AppIcon.appiconset" = false →
  main e w =
    (inr tt,
     mkWorld (files w)
       (stdout w ++
          [ "Error: Directory SwipeSort/Assets.xcassets/AppIcon.appiconset does not exist"%string ])
       (oscalls w ++
          [ PathExists "SwipeSort/Assets.xcassets/AppIcon.appiconset" ])).
Proof. exact (main_missing_directory e w). Qed.

Lemma missing_directory_aborts_witness :
  path_exists env_no_directory "SwipeSort/Assets.xcassets/AppIcon.appiconset"
  = false
  ∧ stdout (main env_no_directory stale_world).2
    = [ "earlier"%string;
        "Error: Directory SwipeSort/Assets.xcassets/AppIcon.appiconset does not exist"%string ]
  ∧ files (main env_no_directory stale_world).2 = files stale_world.
Proof.
  split; [reflexivity|].
  rewrite (missing_directory_aborts env_no_directory stale_world eq_refl).
  split; reflexivity.
Defined.

(** ** Corner radius and stroke width *)

(** C3: for every (width, height) of the table the one rounded rectangle of
    the bitmap has corner radius floor(min(width, height) / 8) and stroke
    width max(1, floor(width / 64)); for width = height = 1024 these are 128
    and 16. *)
Theorem rounded_rectangle_radius_and_stroke (e : Env) :
  Forall (λ it,
      ∃ img, draw_placeholder e it.2.1 it.2.2 = inr img
             ∧ rectangle_radii img = [Z.min it.2.1 it.2.2 / 8]
             ∧ rectangle_strokes img = [Z.max 1 (it.2.1 / 64)]) sizes
  ∧ ∃ img, draw_placeholder e 1024 1024 = inr img
           ∧ rectangle_radii img = [128]
           ∧ rectangle_strokes img = [16].
Proof.
  split.
  - eapply Forall_impl; [exact sizes_drawable|].
    intros [filename [width height]] [Hw Hh]. simpl in *.
    rewrite (draw_placeholder_ok e _ _ Hw Hh).
    eexists. split; [reflexivity|]. split; reflexivity.
  - rewrite (draw_placeholder_ok e 1024 1024) by lia.
    eexists. split; [reflexivity|]. split; reflexivity.
Qed.

(** ** Determinism *)

(** C4: in a fixed environment the bytes written for an entry are a function
    of the entry alone ([icon_bytes], which reads only width and height):
    whatever the disk and the console held before, a run that reaches the
    end leaves exactly these bytes under the entry's path, so a second run
    after the first rewrites every file with identical bytes. *)
Theorem icon_bytes_deterministic (e : Env) (w1 w2 : World) :
  path_exists e output_dir = true → writes_succeed e sizes →
  Forall (λ it,
      is_Some (icon_bytes e it.2.1 it.2.2)
      ∧ files (main e w1).2 !! icon_path it.1 = icon_bytes e it.2.1 it.2.2
      ∧ files (main e w2).2 !! icon_path it.1 = icon_bytes e it.2.1 it.2.2
      ∧ files (main e (main e w1).2).2 !! icon_path it.1
        = files (main e w1).2 !! icon_path it.1) sizes.
Proof.
  intros Hdir Hs. apply Forall_forall.
  intros [filename [width height]] Hin. simpl.
  pose proof sizes_drawable as Hp. unfold drawable_sizes in Hp.
  rewrite Forall_forall in Hp. destruct (Hp _ Hin) as [Hw Hh].
  simpl in Hw, Hh.
  destruct (icon_bytes_ok e width height Hw Hh) as (img & _ & Hb & _).
  assert (Hrun : ∀ w, files (main e w).2 !! icon_path filename
                      = icon_bytes e width height).
  { intros w. rewrite (main_ok e w Hdir Hs). cbn [snd files].
    apply written_lookup;
      [exact icon_paths_distinct | exact sizes_drawable | exact Hin]. }
  split; [rewrite Hb; eexists; reflexivity|].
  rewrite !Hrun. auto.
Qed.

Lemma icon_bytes_deterministic_witness :
  path_exists env_helvetica output_dir = true
  ∧ writes_succeed env_helvetica sizes
  ∧ files (main env_helvetica empty_world).2
      !! icon_path "AppIcon-1024x1024.png"
    = files (main env_helvetica stale_world).2
        !! icon_path "AppIcon-1024x1024.png".
Proof.
  assert (Hs : writes_succeed env_helvetica sizes)
    by (unfold writes_succeed, sizes; repeat constructor).
  split; [reflexivity|]. split; [exact Hs|].
  pose proof (icon_bytes_deterministic env_helvetica empty_world stale_world
                eq_refl Hs) as H.
  do 14 apply Forall_inv_tail in H. apply Forall_inv in H.
  destruct H as (_ & H1 & H2 & _).
  exact (eq_trans H1 (eq_sym H2)).
Defined.

(** ** The glyph *)

Lemma font_size_of_table :
  Forall (λ it, font_size it.2.1 it.2.2 = inr (Z.min it.2.1 it.2.2 * 6 / 10))
         sizes.
Proof. unfold sizes. repeat constructor. Qed.

Lemma choose_font_loaded e width height fs :
  font_size width height = inr fs →
  (font_loads e helvetica fs || font_loads e arial fs)%bool = true →
  requested_size (choose_font e width height) = Some fs.
Proof.
  intros Hfs Hl. unfold choose_font, truetype. rewrite Hfs.
  destruct (font_loads e helvetica fs); [reflexivity|].
  destruct (font_loads e arial fs); [reflexivity|discriminate].
Qed.

Lemma text_position_centres_vertically e width height s font :
  centred_vertically height
    (textbbox e (text_position e width height s font) s font).
Proof.
  unfold text_position, textbbox.
  destruct (getbbox e font s) as [[[l t] r] bt]. simpl.
  unfold centred_vertically. Z.div_mod_to_equations. lia.
Qed.


Lemma text_position_centres_horizontally e width height s font :
  (getbbox e font s).1.1.1 = 0 →
  centred_horizontally width
    (textbbox e (text_position e width height s font) s font).
Proof.
  unfold text_position, textbbox.
  destruct (getbbox e font s) as [[[l t] r] bt]. simpl. intros ->.
  unfold centred_horizontally. Z.div_mod_to_equations. lia.
Qed.



(** ** Font fallback *)


(** ** The rounded rectangle's box *)

(** C7, as the specification words it, fails on the code: on the 20 x 20
    canvas the rectangle's box starts at pixel (0, 0), on the canvas edge. *)
Lemma rectangle_as_specified_counterexample :
  ¬ rectangle_as_specified env_fallback 20 20.
Proof.
  intros (img & b & Hd & Hb & Hin).
  rewrite draw_placeholder_ok in Hd by lia.
  injection Hd as <-. injection Hb as <-.
  destruct Hin as [H0 _]. simpl in H0. lia.
Qed.

(** C7 (amended): every table entry yields a bitmap whose rounded rectangle
    has the box [(0, 0), (width - 1, height - 1)], and whenever the script
    builds a bitmap, for any (width, height), the rounded rectangle's box is
    [(0, 0), (width - 1, height - 1)]: the full pixel extent of the canvas,
    with no margin. *)
Theorem rounded_rectangle_covers_canvas (e : Env) :
  Forall (λ it,
      ∃ img, draw_placeholder e it.2.1 it.2.2 = inr img
             ∧ rectangle_boxes img = [((0, 0), (it.2.1 - 1, it.2.2 - 1))])
    sizes
  ∧ ∀ width height img,
      draw_placeholder e width height = inr img →
      rectangle_boxes img = [((0, 0), (width - 1, height - 1))]
      ∧ rectangle_boxes img = [canvas_extent (size img)]
      ∧ ¬ strictly_inside (canvas_extent (size img)) (size img).
Proof.
  split.
  - eapply Forall_impl; [exact sizes_drawable|].
    intros [filename [width height]] [Hw Hh]. simpl in *.
    rewrite (draw_placeholder_ok e _ _ Hw Hh).
    eexists. split; reflexivity.
  - intros width height img Hd.
    destruct (draw_placeholder_inv e width height img Hd) as [Hw Hh].
    rewrite (draw_placeholder_ok e _ _ Hw Hh) in Hd. injection Hd as <-.
    split; [reflexivity|]. split; [reflexivity|].
    intros [H0 _]. simpl in H0. lia.
Qed.

Lemma rounded_rectangle_covers_canvas_witness :
  ∃ img,
    draw_placeholder env_fallback 1024 1024 = inr img
    ∧ rectangle_boxes img = [((0, 0), (1023, 1023))].
Proof.
  destruct (rounded_rectangle_covers_canvas env_fallback) as [_ Hall].
  eexists. split; [vm_compute; reflexivity|].
  refine (proj1 (Hall 1024 1024 _ _)). vm_compute. reflexivity.
Defined.

(** ** What a run prints *)

Example successful_run_prints :
  stdout (main env_fallback empty_world).2
  = [ "Generating placeholder app icons...";
      "Output directory: SwipeSort/Assets.xcassets/AppIcon.appiconset"
        +:+ Py.newline;
      "✓ Created: AppIcon-20x20@1x.png (20x20)";
      "✓ Created: AppIcon-20x20@2x.png (40x40)";
      "✓ Created: AppIcon-20x20@3x.png (60x60)";
      "✓ Created: AppIcon-29x29@1x.png (29x29)";
      "✓ Created: AppIcon-29x29@2x.png (58x58)";
      "✓ Created: AppIcon-29x29@3x.png (87x87)";
      "✓ Created: AppIcon-40x40@1x.png (40x40)";
      "✓ Created: AppIcon-40x40@2x.png (80x80)";
      "✓ Created: AppIcon-40x40@3x.png (120x120)";
      "✓ Created: AppIcon-60x60@2x.png (120x120)";
      "✓ Created: AppIcon-60x60@3x.png (180x180)";
      "✓ Created: AppIcon-76x76@1x.png (76x76)";
      "✓ Created: AppIcon-76x76@2x.png (152x152)";
      "✓ Created: AppIcon-83.5x83.5@2x.png (167x167)";
      "✓ Created: AppIcon-1024x1024.png (1024x1024)";
      Py.newline +:+ "✓ All placeholder icons generated successfully!";
      "⚠️  Note: These are temporary placeholder images. Replace with actual app icons before release."
    ]%string.
Proof. vm_compute. reflexivity. Qed.

(** C8: on a run that reaches the end (directory present, every write
    succeeds) the script returns normally, opens the output files in table
    order, and prints, after whatever was on the console: the two header
    lines, one confirmation line "✓ Created: <filename> (<width>x<height>)"
    per table entry in table order, the completion notice and the fixed
    note that the images are temporary placeholders -- nineteen lines,
    spelled out below. *)
Theorem successful_run_output (e : Env) (w : World) :
  path_exists e output_dir = true → writes_succeed e sizes →
  (main e w).1 = inr tt
  ∧ stdout (main e w).2
    = stdout w
        ++ [ "Generating placeholder app icons...";
             "Output directory: SwipeSort/Assets.xcassets/AppIcon.appiconset"
               +:+ String "010" "" ]%string
        ++ map (λ it, "✓ Created: " +:+ it.1 +:+ " (" +:+ Py.str it.2.1
                        +:+ "x" +:+ Py.str it.2.2 +:+ ")")%string sizes
        ++ [ String "010" "✓ All placeholder icons generated successfully!";
             "⚠️  Note: These are temporary placeholder images. Replace with actual app icons before release."
           ]%string
  ∧ stdout (main e w).2
    = stdout w ++
      [
        "Generating placeholder app icons...";
        "Output directory: SwipeSort/Assets.xcassets/AppIcon.appiconset"
          +:+ String "010" "";
        "✓ Created: AppIcon-20x20@1x.png (20x20)";
        "✓ Created: AppIcon-20x20@2x.png (40x40)";
        "✓ Created: AppIcon-20x20@3x.png (60x60)";
        "✓ Created: AppIcon-29x29@1x.png (29x29)";
        "✓ Created: AppIcon-29x29@2x.png (58x58)";
        "✓ Created: AppIcon-29x29@3x.png (87x87)";
        "✓ Created: AppIcon-40x40@1x.png (40x40)";
        "✓ Created: AppIcon-40x40@2x.png (80x80)";
        "✓ Created: AppIcon-40x40@3x.png (120x120)";
        "✓ Created: AppIcon-60x60@2x.png (120x120)";
        "✓ Created: AppIcon-60x60@3x.png (180x180)";
        "✓ Created: AppIcon-76x76@1x.png (76x76)";
        "✓ Created: AppIcon-76x76@2x.png (152x152)";
        "✓ Created: AppIcon-83.5x83.5@2x.png (167x167)";
        "✓ Created: AppIcon-1024x1024.png (1024x1024)";
        String "010" "✓ All placeholder icons generated successfully!";
        "⚠️  Note: These are temporary placeholder images. Replace with actual app icons before release."
      ]%string
  ∧ oscalls (main e w).2
    = oscalls w ++ PathExists "SwipeSort/Assets.xcassets/AppIcon.appiconset"
        :: map (λ it, OpenWrite
                        ("SwipeSort/Assets.xcassets/AppIcon.appiconset/"
                           +:+ it.1)) sizes.
Proof.
  intros Hdir Hs. rewrite (main_ok e w Hdir Hs). cbn [fst snd stdout oscalls].
  split; [reflexivity|]. split; [reflexivity|].
  split.
  - apply (f_equal (app (stdout w))). vm_compute. reflexivity.
  - apply (f_equal (app (oscalls w))). vm_compute. reflexivity.
Qed.

Lemma successful_run_output_witness :
  path_exists env_fallback output_dir = true
  ∧ writes_succeed env_fallback sizes
  ∧ (main env_fallback stale_world).1 = inr tt
  ∧ stdout (main env_fallback stale_world).2
    = stdout stale_world ++
      [
        "Generating placeholder app icons...";
        "Output directory: SwipeSort/Assets.xcassets/AppIcon.appiconset"
          +:+ String "010" "";
        "✓ Created: AppIcon-20x20@1x.png (20x20)";
        "✓ Created: AppIcon-20x20@2x.png (40x40)";
        "✓ Created: AppIcon-20x20@3x.png (60x60)";
        "✓ Created: AppIcon-29x29@1x.png (29x29)";
        "✓ Created: AppIcon-29x29@2x.png (58x58)";
        "✓ Created: AppIcon-29x29@3x.png (87x87)";
        "✓ Created: AppIcon-40x40@1x.png (40x40)";
        "✓ Created: AppIcon-40x40@2x.png (80x80)";
        "✓ Created: AppIcon-40x40@3x.png (120x120)";
        "✓ Created: AppIcon-60x60@2x.png (120x120)";
        "✓ Created: AppIcon-60x60@3x.png (180x180)";
        "✓ Created: AppIcon-76x76@1x.png (76x76)";
        "✓ Created: AppIcon-76x76@2x.png (152x152)";
        "✓ Created: AppIcon-83.5x83.5@2x.png (167x167)";
        "✓ Created: AppIcon-1024x1024.png (1024x1024)";
        String "010" "✓ All placeholder icons generated successfully!";
        "⚠️  Note: These are temporary placeholder images. Replace with actual app icons before release."
      ]%string.
Proof.
  assert (Hs : writes_succeed env_fallback sizes)
    by (unfold writes_succeed, sizes; repeat constructor).
  split; [reflexivity|]. split; [exact Hs|].
  destruct (successful_run_output env_fallback stale_world eq_refl Hs)
    as (Hr & _ & Ho & _).
  split; [exact Hr|exact Ho].
Defined.

(** ** Exit status *)

(** C9: when the output directory is missing, [main] returns normally after
    printing the diagnostic, so the script exits with status 0; the printed
    line is the only trace of the failure. *)
Theorem missing_directory_exit_status (e : Env) (w : World) :
  path_exists e output_dir = false →
  (main e w).1 = inr tt
  ∧ (run_script e w).1 = 0
  ∧ stdout (run_script e w).2 = stdout w ++ [error_line]
  ∧ files (run_script e w).2 = files w.
Proof.
  intros Hdir. unfold run_script.
  rewrite (main_missing_directory e w Hdir). repeat split.
Qed.

Lemma missing_directory_exit_status_witness :
  path_exists env_no_directory output_dir = false
  ∧ (run_script env_no_directory empty_world).1 = 0
  ∧ stdout (run_script env_no_directory empty_world).2 = [error_line].
Proof.
  split; [reflexivity|].
  destruct (missing_directory_exit_status env_no_directory empty_world eq_refl)
    as (_ & Hx & Ho & _).
  split; [exact Hx|exact Ho].
Defined.

(** ** A write that fails in the middle of the loop *)

(** C10: the directory is looked up once, before the first file is opened.
    If the directory is there and the write for one table entry is the first
    to fail, the exception leaves [main] uncaught (the script exits with
    status 1), the console holds the header and the confirmation lines of
    the entries before it but no completion notice, the files of the
    entries before it are on disk with their bytes, and the paths of the
    failing entry and of all later ones are as they were before the run. *)
Theorem failed_write_leaves_earlier_files (e : Env) (w : World)
    (pre post : list (string * (Z * Z))) (filename : string)
    (width height : Z) :
  sizes = pre ++ (filename, (width, height)) :: post →
  path_exists e output_dir = true →
  writes_succeed e pre →
  save_raises e (icon_path filename) = true →
  (main e w).1 = inl OSError
  ∧ (run_script e w).1 = 1
  ∧ Forall (λ it,
       is_Some (icon_bytes e it.2.1 it.2.2)
       ∧ files (main e w).2 !! icon_path it.1 = icon_bytes e it.2.1 it.2.2)
     pre
  ∧ Forall (λ it, files (main e w).2 !! icon_path it.1
                  = files w !! icon_path it.1)
     ((filename, (width, height)) :: post)
  ∧ stdout (main e w).2
    = stdout w ++ header_lines
        ++ map (λ it, created_line it.1 it.2.1 it.2.2) pre
  ∧ oscalls (main e w).2
    = oscalls w ++ PathExists output_dir
        :: map (λ it, OpenWrite (icon_path it.1))
             (pre ++ [(filename, (width, height))]).
Proof.
  intros Hsplit Hdir Hs Hf.
  pose proof icon_paths_distinct as Hnd. rewrite Hsplit in Hnd.
  rewrite map_app in Hnd. apply NoDup_app in Hnd as (Hnd1 & Hnd2 & _).
  pose proof sizes_drawable as Hp. unfold drawable_sizes in Hp.
  rewrite Hsplit in Hp. apply Forall_app in Hp as [Hpre _].
  unfold run_script.
  rewrite (main_write_fails e w pre filename width height post
             Hsplit Hdir Hs Hf).
  cbn [fst snd files stdout oscalls].
  split; [reflexivity|]. split; [reflexivity|]. split; [|split].
  - apply Forall_forall. intros [f [a b]] Hin.
    pose proof Hpre as Hpos. rewrite Forall_forall in Hpos.
    destruct (Hpos _ Hin) as [Ha Hb]. simpl in Ha, Hb. cbn [fst snd].
    destruct (icon_bytes_ok e a b Ha Hb) as (img & _ & Hbytes & _).
    split; [rewrite Hbytes; eexists; reflexivity|].
    apply written_lookup; assumption.
  - apply Forall_forall. intros it Hin.
    apply written_lookup_other. intros Hmem.
    apply (Hnd2 _ Hmem).
    apply (list_elem_of_fmap_2 (λ it, icon_path it.1)) in Hin. exact Hin.
  - split; reflexivity.
Qed.

Lemma failed_write_leaves_earlier_files_witness :
  path_exists env_write_fails output_dir = true
  ∧ save_raises env_write_fails (icon_path "AppIcon-29x29@1x.png") = true
  ∧ (main env_write_fails empty_world).1 = inl OSError
  ∧ (run_script env_write_fails empty_world).1 = 1
  ∧ stdout (main env_write_fails empty_world).2
    = header_lines
        ++ map (λ it, created_line it.1 it.2.1 it.2.2) (take 3 sizes).
Proof.
  split; [reflexivity|]. split; [reflexivity|].
  assert (Hs : writes_succeed env_write_fails (take 3 sizes))
    by (unfold writes_succeed, sizes; repeat constructor).
  destruct (failed_write_leaves_earlier_files env_write_fails empty_world
              (take 3 sizes) (drop 4 sizes) "AppIcon-29x29@1x.png" 29 29
              eq_refl eq_refl Hs eq_refl)
    as (Hr & Hx & _ & _ & Ho & _).
  split; [exact Hr|]. split; [exact Hx|exact Ho].
Defined.

(** * Further properties of the script *)

(** ** The loop and [main] in an arbitrary environment *)

Lemma written_prefix_take e items :
  written_prefix e items = take (length (written_prefix e items)) items.
Proof.
  induction items as [|it rest IH]; [reflexivity|]. simpl.
  destruct (save_raises e (icon_path it.1)); [reflexivity|].
  simpl. f_equal. exact IH.
Qed.

Lemma attempted_take e items :
  attempted e items = take (length (attempted e items)) items.
Proof.
  induction items as [|it rest IH]; [reflexivity|]. simpl.
  destruct (save_raises e (icon_path it.1)); simpl.
  - rewrite take_0. reflexivity.
  - f_equal. exact IH.
Qed.

Lemma all_written_true e items :
  all_written e items = true ↔ writes_succeed e items.
Proof.
  unfold all_written, writes_succeed. rewrite forallb_forall, Forall_forall.
  split; intros H it Hin.
  - apply list_elem_of_In in Hin. apply H in Hin.
    destruct (save_raises e (icon_path it.1)); [discriminate|reflexivity].
  - apply list_elem_of_In in Hin. rewrite (H it Hin). reflexivity.
Qed.

Lemma all_written_false e items :
  all_written e items = false
  ↔ Exists (λ it, save_raises e (icon_path it.1) = true) items.
Proof.
  induction items as [|it rest IH]; simpl.
  - split; [discriminate|]. intros H. inversion H.
  - rewrite Exists_cons.
    destruct (save_raises e (icon_path it.1)); simpl.
    + split; auto.
    + rewrite IH. split; [auto|]. intros [H|H]; [discriminate|exact H].
Qed.

Lemma written_prefix_all e items :
  all_written e items = true → written_prefix e items = items.
Proof.
  induction items as [|it rest IH]; [reflexivity|]. simpl.
  destruct (save_raises e (icon_path it.1)); simpl; [discriminate|].
  intros H. f_equal. exact (IH H).
Qed.

Lemma for_items_run e items : ∀ w,
  drawable_sizes items →
  for_items e items w =
    (if all_written e items then inr tt else inl OSError,
     mkWorld (written e (written_prefix e items) (files w))
             (stdout w ++ created_lines (written_prefix e items))
             (oscalls w ++ write_calls (attempted e items))).
Proof.
  induction items as [|[f [a b]] rest IH]; intros w Hp.
  - simpl. unfold ret. rewrite !app_nil_r. destruct w; reflexivity.
  - inversion Hp as [|? ? [Ha Hb] Hp']; subst. simpl in Ha, Hb.
    cbn [for_items all_written forallb written_prefix attempted fst snd].
    unfold bind.
    destruct (save_raises e (icon_path f)) eqn:Hs.
    + rewrite create_placeholder_icon_write_fails by assumption.
      simpl. rewrite app_nil_r. reflexivity.
    + rewrite create_placeholder_icon_ok by assumption.
      rewrite IH by assumption. simpl.
      rewrite <- !app_assoc. reflexivity.
Qed.

Lemma main_present e w :
  path_exists e output_dir = true →
  main e w =
    (if all_written e sizes then inr tt else inl OSError,
     mkWorld (written e (written_prefix e sizes) (files w))
             (stdout w ++ header_lines ++ created_lines (written_prefix e sizes)
                ++ (if all_written e sizes then [success_line; note_line]
                    else []))
             (oscalls w ++ PathExists output_dir
                :: write_calls (attempted e sizes))).
Proof.
  intros Hd. unfold main, bind, os_path_exists, print.
  rewrite Hd. cbn [negb files stdout oscalls].
  rewrite (for_items_run e sizes _ sizes_drawable).
  cbn [files stdout oscalls]. unfold header_lines.
  destruct (all_written e sizes).
  - rewrite <- !app_assoc. reflexivity.
  - rewrite app_nil_r, <- !app_assoc. reflexivity.
Qed.

Lemma written_prefix_drawable e : drawable_sizes (written_prefix e sizes).
Proof.
  unfold drawable_sizes. rewrite written_prefix_take.
  apply Forall_take. exact sizes_drawable.
Qed.

Lemma written_prefix_distinct e :
  NoDup (map (λ it, icon_path it.1) (written_prefix e sizes)).
Proof.
  rewrite written_prefix_take.
  change (NoDup ((λ it : string * (Z * Z), icon_path it.1)
                   <$> take (length (written_prefix e sizes)) sizes)).
  rewrite fmap_take.
  eapply sublist_NoDup; [exact icon_paths_distinct|apply sublist_take].
Qed.

Lemma written_prefix_elem e items it :
  it ∈ written_prefix e items → it ∈ items.
Proof.
  induction items as [|x rest IH]; simpl; [auto|].
  destruct (save_raises e (icon_path x.1)); [intros H; inversion H|].
  rewrite !elem_of_cons. intros [->|H]; auto.
Qed.

Lemma written_prefix_short e items :
  all_written e items = false →
  (length (written_prefix e items) < length items)%nat.
Proof.
  induction items as [|x rest IH]; simpl; [discriminate|].
  destruct (save_raises e (icon_path x.1)); simpl; [lia|].
  intros H. specialize (IH H). lia.
Qed.

Lemma attempted_length e items :
  (length (attempted e items) ≤ length items)%nat.
Proof.
  induction items as [|x rest IH]; simpl; [lia|].
  destruct (save_raises e (icon_path x.1)); simpl; lia.
Qed.

Lemma written_dom e items : ∀ fs, dom fs ⊆ dom (written e items fs).
Proof.
  induction items as [|it rest IH]; intros fs; [reflexivity|]. simpl.
  destruct (icon_bytes e it.2.1 it.2.2); [|apply IH].
  etrans; [apply dom_insert_subseteq|apply IH].
Qed.

Lemma written_twice e items fs :
  NoDup (map (λ it, icon_path it.1) items) → drawable_sizes items →
  written e items (written e items fs) = written e items fs.
Proof.
  intros Hnd Hp. apply map_eq. intros p.
  destruct (decide (p ∈ map (λ it, icon_path it.1) items)) as [Hin|Hout].
  - apply list_elem_of_fmap in Hin as ([f [a b]] & -> & Hin). simpl.
    rewrite !(written_lookup e items _ f a b Hnd Hp Hin). reflexivity.
  - rewrite !written_lookup_other by exact Hout. reflexivity.
Qed.

Lemma success_line_not_created items :
  success_line ∉ header_lines ++ created_lines items.
Proof.
  intros H. apply elem_of_app in H as [H|H].
  - unfold header_lines in H. rewrite !elem_of_cons in H.
    destruct H as [H|[H|H]]; [discriminate H|discriminate H|inversion H].
  - apply list_elem_of_fmap in H as (it & H & _). discriminate H.
Qed.

Lemma icon_paths_under_output_dir :
  Forall (λ it, icon_path it.1 = output_dir +:+ "/" +:+ it.1) sizes.
Proof. unfold sizes. repeat constructor. Qed.

(** ** Exit status and console, in any environment *)


(** X2: in any environment, the completion notice is among the lines a run
    prints exactly when the output directory exists and every table entry
    was written. *)
Theorem completion_notice_iff_all_written (e : Env) (w : World) :
  ∃ out,
    stdout (main e w).2 = stdout w ++ out
    ∧ (success_line ∈ out
       ↔ path_exists e output_dir = true ∧ writes_succeed e sizes).
Proof.
  destruct (path_exists e output_dir) eqn:Hd.
  - rewrite (main_present e w Hd). cbn [snd stdout].
    eexists. split; [reflexivity|].
    destruct (all_written e sizes) eqn:Ha.
    + split.
      * intros _. split; [reflexivity|]. apply all_written_true. exact Ha.
      * intros _. rewrite app_assoc. apply elem_of_app. right.
        apply elem_of_cons. left. reflexivity.
    + split.
      * rewrite app_nil_r. intros H.
        destruct (success_line_not_created _ H).
      * intros [_ Hs]. apply all_written_true in Hs. congruence.
  - rewrite (main_missing_directory e w Hd). cbn [snd stdout].
    eexists. split; [reflexivity|]. split.
    + intros H. apply list_elem_of_singleton in H. discriminate H.
    + intros [Hx _]. discriminate Hx.
Qed.

(** ** The file store, in any environment *)

(** X3: whatever the environment, a run leaves every path other than the
    fifteen icon paths exactly as it was. *)
Theorem other_paths_untouched (e : Env) (w : World) (p : string) :
  p ∉ map (λ it, icon_path it.1) sizes →
  files (main e w).2 !! p = files w !! p.
Proof.
  intros Hp. destruct (path_exists e output_dir) eqn:Hd.
  - rewrite (main_present e w Hd). cbn [snd files].
    apply written_lookup_other. intros Hin. apply Hp.
    apply list_elem_of_fmap in Hin as (it & -> & Hin).
    apply (list_elem_of_fmap_2 (λ it, icon_path it.1)).
    exact (written_prefix_elem e sizes it Hin).
  - rewrite (main_missing_directory e w Hd). reflexivity.
Qed.

Lemma other_paths_untouched_witness :
  ("README.md"%string ∉ map (λ it, icon_path it.1) sizes)
  ∧ files (main env_fallback stale_world).2 !! "README.md"%string
    = files stale_world !! "README.md"%string.
Proof.
  assert (H : "README.md"%string ∉ map (λ it, icon_path it.1) sizes)
    by (apply (bool_decide_unpack _); vm_compute; reflexivity).
  split; [exact H|].
  exact (other_paths_untouched env_fallback stale_world "README.md" H).
Defined.

(** X4: a run only adds: every file that was on disk is still there, and
    what was on the console and in the call log before the run is a prefix
    of what is there after it. *)
Theorem run_only_appends (e : Env) (w : World) :
  dom (files w) ⊆ dom (files (main e w).2)
  ∧ stdout w `prefix_of` stdout (main e w).2
  ∧ oscalls w `prefix_of` oscalls (main e w).2.
Proof.
  destruct (path_exists e output_dir) eqn:Hd.
  - rewrite (main_present e w Hd). cbn [snd files stdout oscalls].
    split; [apply written_dom|]. split; eexists; reflexivity.
  - rewrite (main_missing_directory e w Hd). cbn [snd files stdout oscalls].
    split; [reflexivity|]. split; eexists; reflexivity.
Qed.

(** X5: in any environment a run looks the output directory up once, first,
    and then opens for writing a prefix of the table's files, in table
    order, each directly under the output directory and none twice. *)
Theorem writes_in_table_order (e : Env) (w : World) :
  ∃ n,
    (n ≤ length sizes)%nat
    ∧ oscalls (main e w).2
      = oscalls w ++ PathExists output_dir
          :: map (λ it, OpenWrite (output_dir +:+ "/" +:+ it.1)) (take n sizes)
    ∧ NoDup (map (λ it, output_dir +:+ "/" +:+ it.1) (take n sizes)).
Proof.
  assert (Hpaths : ∀ n,
    map (λ it, icon_path it.1) (take n sizes)
    = map (λ it, output_dir +:+ "/" +:+ it.1) (take n sizes)).
  { intros n. apply map_ext_in. intros it Hin.
    apply list_elem_of_In in Hin.
    pose proof icon_paths_under_output_dir as Hall.
    rewrite Forall_forall in Hall. apply Hall.
    apply elem_of_take in Hin as (i & Hi & _).
    exact (list_elem_of_lookup_2 _ _ _ Hi). }
  assert (Hnd : ∀ n,
    NoDup (map (λ it, output_dir +:+ "/" +:+ it.1) (take n sizes))).
  { intros n. rewrite <- Hpaths.
    change (NoDup ((λ it : string * (Z * Z), icon_path it.1)
                     <$> take n sizes)).
    rewrite fmap_take.
    eapply sublist_NoDup; [exact icon_paths_distinct|apply sublist_take]. }
  destruct (path_exists e output_dir) eqn:Hd.
  - exists (length (attempted e sizes)).
    split; [apply attempted_length|]. split; [|apply Hnd].
    rewrite (main_present e w Hd). cbn [snd oscalls].
    rewrite (attempted_take e sizes) at 1. unfold write_calls.
    do 2 f_equal.
    rewrite <- (map_map (λ it, icon_path it.1) OpenWrite), Hpaths.
    rewrite map_map. reflexivity.
  - exists 0%nat. split; [lia|]. split; [|apply Hnd].
    rewrite (main_missing_directory e w Hd). reflexivity.
Qed.

(** X6: running the script a second time in the same environment leaves the
    whole file store as the first run left it, also when a write fails. *)
Theorem rerun_leaves_disk_unchanged (e : Env) (w : World) :
  files (main e (main e w).2).2 = files (main e w).2.
Proof.
  destruct (path_exists e output_dir) eqn:Hd.
  - rewrite !(main_present e _ Hd). cbn [snd files].
    apply written_twice;
      [apply written_prefix_distinct|apply written_prefix_drawable].
  - rewrite !(main_missing_directory e _ Hd). reflexivity.
Qed.



(** ** One icon *)

(** X8: called with a width or a height that is not positive (and neither
    above 16384), [create_placeholder_icon] raises [ValueError] while
    drawing, before [save]: no file is opened, nothing is written and nothing
    is printed. *)
Theorem nonpositive_canvas_raises (e : Env) (filename : string)
    (width height : Z) (w : World) :
  width ≤ 0 ∨ height ≤ 0 →
  width ≤ 16384 → height ≤ 16384 →
  create_placeholder_icon e filename width height w = (inl ValueError, w).
Proof.
  intros H Hwmax Hhmax.
  unfold create_placeholder_icon, bind, lift, draw_placeholder, PIL.new,
    rounded_rectangle; simpl.
  destruct (Z.ltb_spec width 0); [reflexivity|].
  destruct (Z.ltb_spec height 0); [reflexivity|]. simpl.
  destruct (Z.ltb_spec 2147483647 width); [lia|].
  destruct (Z.ltb_spec 2147483647 height); [lia|]. simpl.
  destruct (Z.ltb_spec (width - 1) 0); [reflexivity|].
  destruct (Z.ltb_spec (height - 1) 0); [reflexivity|]. lia.
Qed.

Lemma nonpositive_canvas_raises_witness :
  (0 ≤ 0 ∨ 20 ≤ 0) ∧ 0 ≤ 16384 ∧ 20 ≤ 16384
  ∧ create_placeholder_icon env_fallback "AppIcon-0x20.png" 0 20 stale_world
    = (inl ValueError, stale_world).
Proof.
  split; [left; lia|]. split; [lia|]. split; [lia|].
  apply (nonpositive_canvas_raises env_fallback "AppIcon-0x20.png" 0 20);
    [left; lia|lia|lia].
Defined.

Lemma font_size_exact_from_spec (fuel : nat) : ∀ start m,
  font_size_exact_from fuel start = true →
  start ≤ m < start + Z.of_nat fuel →
  font_size m m = inr (m * 6 / 10).
Proof.
  induction fuel as [|fuel IH]; intros start m Hc Hm; [lia|].
  cbn [font_size_exact_from] in Hc. apply andb_true_iff in Hc as [Hhere Hrest].
  destruct (Z.eq_dec m start) as [->|Hne].
  - destruct (font_size start start) as [err|fs]; [discriminate Hhere|].
    f_equal. apply Z.eqb_eq. exact Hhere.
  - apply (IH (start + 1)); [exact Hrest|lia].
Qed.

Lemma font_size_exact_upto_spec (n m : Z) :
  font_size_exact_upto n = true → 0 ≤ m ≤ n →
  font_size m m = inr (m * 6 / 10).
Proof.
  intros Hc Hm. apply (font_size_exact_from_spec _ 0 m Hc). lia.
Qed.

Lemma font_size_exact_checked : font_size_exact_upto 16384 = true.
Proof. vm_compute. reflexivity. Qed.

(** X9: for every canvas whose smaller side is between 0 and 16384, the
    font size computed in double precision, int(min(width, height) * 0.6),
    is exactly floor(6 * min(width, height) / 10): the rounding of 0.6 and of
    the product never moves the result across an integer. *)
Theorem font_size_is_three_fifths (width height : Z) :
  0 ≤ Z.min width height ≤ 16384 →
  font_size width height = inr (Z.min width height * 6 / 10).
Proof.
  intros Hm.
  rewrite <- (font_size_exact_upto_spec 16384 (Z.min width height)
                font_size_exact_checked Hm).
  unfold font_size. rewrite Z.min_id. reflexivity.
Qed.

Lemma font_size_is_three_fifths_witness :
  0 ≤ Z.min 750 1334 ≤ 16384 ∧ font_size 750 1334 = inr 450.
Proof.
  split; [lia|].
  exact (font_size_is_three_fifths 750 1334 ltac:(lia)).
Defined.

(** X10: whenever the script builds a bitmap, the box [textbbox] reports for
    the letter at the position it is drawn at (horizontally from the pen
    origin to the advance; not the inked pixels) keeps the size of the
    font's box; its top edge is at (height - text_height) // 2, so its top
    and bottom margins differ by at most one pixel; its left edge is at
    (width - text_width) // 2 plus the box's left offset bbox[0], so its left
    and right margins differ by twice that offset, up to one pixel. *)
Theorem text_box_placement (e : Env) (width height l t r b : Z)
    (img : Image) :
  draw_placeholder e width height = inr img →
  getbbox e (choose_font e width height) "S" = (l, t, r, b) →
  ∃ L T R B,
    text_boxes e img
    = [("S"%string, choose_font e width height, (L, T, R, B))]
    ∧ R - L = r - l ∧ B - T = b - t
    ∧ T = (height - (b - t)) / 2
    ∧ L = (width - (r - l)) / 2 + l
    ∧ Z.abs (T - (height - B)) ≤ 1
    ∧ Z.abs (L - (width - R) - 2 * l) ≤ 1.
Proof.
  intros Hd Hbox.
  destruct (draw_placeholder_inv e width height img Hd) as [Hw Hh].
  rewrite (draw_placeholder_ok e _ _ Hw Hh) in Hd. injection Hd as <-.
  unfold text_boxes, text_position, textbbox. simpl.
  rewrite !Hbox. simpl.
  eexists _, _, _, _. split; [reflexivity|].
  repeat split; try lia; Z.div_mod_to_equations; lia.
Qed.

Lemma text_box_placement_witness :
  ∃ img L T R B,
    draw_placeholder env_helvetica 1024 1024 = inr img
    ∧ getbbox env_helvetica (choose_font env_helvetica 1024 1024) "S"
      = (0, 164, 359, 605)
    ∧ text_boxes env_helvetica img
      = [("S"%string, choose_font env_helvetica 1024 1024, (L, T, R, B))]
    ∧ T = (1024 - (605 - 164)) / 2
    ∧ Z.abs (L - (1024 - R) - 2 * 0) ≤ 1.
Proof.
  assert (Hd : draw_placeholder env_helvetica 1024 1024
               = inr (mkImage "RGB" (1024, 1024) "#4A90E2"
                        [ RoundedRectangle ((0, 0), (1023, 1023)) 128
                            "#5BA3F5" "#3A7BC8" 16;
                          Text (332, 127) "S" "white"
                            (FreeTypeFont helvetica 614) ]))
    by (vm_compute; reflexivity).
  assert (Hbox : getbbox env_helvetica (choose_font env_helvetica 1024 1024)
                   "S" = (0, 164, 359, 605)) by (vm_compute; reflexivity).
  destruct (text_box_placement env_helvetica 1024 1024 0 164 359 605 _
              Hd Hbox)
    as (L & T & R & B & Hg & _ & _ & HT & _ & _ & Hm).
  eexists _, L, T, R, B. split; [exact Hd|]. split; [exact Hbox|].
  split; [exact Hg|]. split; [exact HT|exact Hm].
Defined.

(** X11: whenever the script builds a bitmap, the corner radius is never
    negative and two radii fit strictly inside the shorter side, the corners
    are square (radius 0) exactly when the shorter side is below 8 pixels,
    and the stroke is at least one pixel wide, exactly one pixel for widths
    below 128, and never wider than a 64th of the width otherwise. *)
Theorem radius_and_stroke_bounds (e : Env) (width height : Z) (img : Image) :
  draw_placeholder e width height = inr img →
  ∃ radius stroke,
    rectangle_radii img = [radius]
    ∧ rectangle_strokes img = [stroke]
    ∧ 0 ≤ radius ∧ 2 * radius + 1 ≤ Z.min width height
    ∧ (radius = 0 ↔ Z.min width height < 8)
    ∧ 1 ≤ stroke ∧ 64 * stroke ≤ Z.max 64 width
    ∧ (stroke = 1 ↔ width < 128).
Proof.
  intros Hd.
  destruct (draw_placeholder_inv e width height img Hd) as [Hw Hh].
  rewrite (draw_placeholder_ok e _ _ Hw Hh) in Hd. injection Hd as <-.
  eexists _, _. split; [reflexivity|]. split; [reflexivity|].
  split; [Z.div_mod_to_equations; lia|].
  split; [Z.div_mod_to_equations; lia|].
  split; [split; intros Hr; Z.div_mod_to_equations; lia|].
  split; [lia|].
  split; [Z.div_mod_to_equations; lia|].
  split; intros Hs; Z.div_mod_to_equations; lia.
Qed.

Lemma radius_and_stroke_bounds_witness :
  ∃ img radius stroke,
    draw_placeholder env_fallback 6400 10 = inr img
    ∧ rectangle_radii img = [radius]
    ∧ rectangle_strokes img = [stroke]
    ∧ 2 * radius + 1 ≤ Z.min 6400 10
    ∧ 1 ≤ stroke.
Proof.
  assert (Hd : draw_placeholder env_fallback 6400 10
               = inr (mkImage "RGB" (6400, 10) "#4A90E2"
                        [ RoundedRectangle ((0, 0), (6399, 9)) 1
                            "#5BA3F5" "#3A7BC8" 100;
                          Text (3197, -1) "S" "white" DefaultFont ]))
    by (vm_compute; reflexivity).
  destruct (radius_and_stroke_bounds env_fallback 6400 10 _ Hd)
    as (radius & stroke & Hr & Hs & _ & Hfit & _ & Hone & _).
  eexists _, radius, stroke. split; [exact Hd|]. split; [exact Hr|].
  split; [exact Hs|]. split; [exact Hfit|exact Hone].
Defined.
